(** * generate_splat.py: the SHARP command-line wrapper

    A shallow embedding of [Scripts/generate_splat.py] and of the part of
    the Python runtime it calls ([json.dumps], [pathlib.Path], [print],
    [sys.exit], [subprocess.run]), followed by the properties of its
    control flow.

    Conventions.
    - A Python [str] is a [string]; a character stands for the code point
      of the same number (code points below 256).
    - The library is that of Python 3.11 on Linux, with UTF-8 as the
      file system encoding.
    - The file system is a tree of directories and files without symbolic
      links; the order of a directory's entries is the enumeration order
      of [os.scandir]. A directory can always be searched and listed; it
      carries its write permission. Names are limited to [NAME_MAX]
      bytes and the text of a path to less than [PATH_MAX].
    - The external tool [sharp] is a parameter: any function from its
      argument vector and the file system to an outcome. *)

From Stdlib Require Import String Ascii List ZArith Bool Arith Lia.
Import ListNotations.

Set Warnings "-register-all".

Local Open Scope list_scope.
Local Open Scope string_scope.

(** ** Characters and strings *)

Definition dquote : ascii := "034"%char.
Definition backslash : ascii := "092"%char.
Definition newline : ascii := "010"%char.
Definition slash : ascii := "/"%char.

Definition str1 (c : ascii) : string := String c EmptyString.

(** [s.split(sep)] for a one-character separator. *)
Fixpoint split (sep : ascii) (s : string) : list string :=
  match s with
  | EmptyString => [EmptyString]
  | String c rest =>
      if Ascii.eqb c sep then EmptyString :: split sep rest
      else match split sep rest with
           | [] => [str1 c]
           | h :: t => String c h :: t
           end
  end.

(** [sep.join(parts)] *)
Definition join (sep : string) (parts : list string) : string :=
  String.concat sep parts.

(** [s.endswith(suffix)] *)
Fixpoint endswith (s suffix : string) : bool :=
  (s =? suffix) ||
  match s with
  | EmptyString => false
  | String _ rest => endswith rest suffix
  end.

(** ** json.dumps on a dict of strings

    [json.dumps] is called with its defaults: [ensure_ascii=True] and the
    separators [", "] and [": "]; keys keep their insertion order. *)

Definition dict := list (string * string).

Definition hex_digit (n : nat) : ascii :=
  nth n ["0"; "1"; "2"; "3"; "4"; "5"; "6"; "7";
         "8"; "9"; "a"; "b"; "c"; "d"; "e"; "f"]%char "0"%char.

(** ['\\u{0:04x}'.format(n)] for [n < 256] *)
Definition u_escape (n : nat) : string :=
  String backslash
    (String "u" (String "0" (String "0"
      (String (hex_digit (n / 16)) (str1 (hex_digit (n mod 16))))))).

(** The replacement of one character by [py_encode_basestring_ascii]:
    a backslash, a double quote and every character outside the range
    from space to tilde are replaced; [ESCAPE_DCT] gives the short
    forms, the other characters get the four-digit form. *)
Definition escape_char (c : ascii) : string :=
  let n := nat_of_ascii c in
  if Ascii.eqb c backslash then String backslash (str1 backslash)
  else if Ascii.eqb c dquote then String backslash (str1 dquote)
  else if ((32 <=? n) && (n <=? 126))%nat then str1 c
  else if (n =? 8)%nat then String backslash "b"
  else if (n =? 12)%nat then String backslash "f"
  else if (n =? 10)%nat then String backslash "n"
  else if (n =? 13)%nat then String backslash "r"
  else if (n =? 9)%nat then String backslash "t"
  else u_escape n.

Fixpoint escape (s : string) : string :=
  match s with
  | EmptyString => EmptyString
  | String c rest => escape_char c ++ escape rest
  end.

Definition json_string (s : string) : string :=
  String dquote (escape s ++ str1 dquote).

Definition json_item (kv : string * string) : string :=
  json_string (fst kv) ++ ": " ++ json_string (snd kv).

Definition json_dumps (d : dict) : string :=
  "{" ++ join ", " (map json_item d) ++ "}".

(** ** pathlib.PurePosixPath *)

Record Path : Type := mkPath { root : string; tail : list string }.

(** [posixpath.splitroot]: no root, a single slash, or exactly two. *)
Definition splitroot (p : string) : string * string :=
  match p with
  | String "/" (String "/" (String "/" r)) => ("/", String "/" (String "/" r))
  | String "/" (String "/" r) => ("//", r)
  | String "/" r => ("/", r)
  | _ => ("", p)
  end.

(** [Path(s)]: the parts are the segments that are neither empty nor ["."] *)
Definition keep_part (x : string) : bool :=
  negb (x =? "") && negb (x =? ".").

Definition Path_of (s : string) : Path :=
  let '(r, rel) := splitroot s in
  mkPath r (filter keep_part (split slash rel)).

(** [str(p)] *)
Definition str (p : Path) : string :=
  let s := root p ++ join "/" (tail p) in
  if s =? "" then "." else s.

(** [p / name] for a single name, as [glob] builds its results. *)
Definition child (p : Path) (name : string) : Path :=
  mkPath (root p) (tail p ++ [name])%list.

(** [Path.parent] *)
Definition parent (p : Path) : Path :=
  mkPath (root p) (removelast (tail p)).

(** ** fnmatch for patterns of literals, [?] and [*] *)

Fixpoint fnmatch (pat : string) : string -> bool :=
  match pat with
  | EmptyString => fun name => name =? ""
  | String c pat' =>
      if Ascii.eqb c "*" then
        (fix star (name : string) : bool :=
           fnmatch pat' name ||
           match name with
           | EmptyString => false
           | String _ name' => star name'
           end)
      else if Ascii.eqb c "?" then
        fun name => match name with
                    | EmptyString => false
                    | String _ name' => fnmatch pat' name'
                    end
      else
        fun name => match name with
                    | EmptyString => false
                    | String d name' => Ascii.eqb c d && fnmatch pat' name'
                    end
  end.

(** ** The file system

    A node is a regular file or a directory; a directory carries its
    write permission and its entries in enumeration order. *)

Inductive node : Type :=
| File
| Dir (writable : bool) (entries : list (string * node)).

Inductive errno : Type := ENOENT | ENOTDIR | EEXIST | EACCES | ENAMETOOLONG.

(** The exceptions of the calls of [main]. *)
Inductive exn : Type :=
| OSError (e : errno)
| ValueError
| IndexError.

(** The first entry of that name. *)
Fixpoint assoc (name : string) (es : list (string * node)) : option node :=
  match es with
  | [] => None
  | (n, c) :: rest => if n =? name then Some c else assoc name rest
  end.

(** Replace the first entry of that name by its image under [f]. *)
Fixpoint update (name : string) (f : node -> node)
    (es : list (string * node)) : list (string * node) :=
  match es with
  | [] => []
  | (n, c) :: rest =>
      if n =? name then (n, f c) :: rest else (n, c) :: update name f rest
  end.

(** The node reached from [t] along the names of [path], outermost first. *)
Fixpoint lookup (t : node) (path : list string) : option node :=
  match path with
  | [] => Some t
  | n :: rest =>
      match t with
      | File => None
      | Dir _ es =>
          match assoc n es with
          | Some c => lookup c rest
          | None => None
          end
      end
  end.

(** Add the entry [(name, c)] at the end of the directory at [path]. *)
Fixpoint add_child (t : node) (path : list string) (name : string)
    (c : node) : node :=
  match t with
  | File => File
  | Dir w es =>
      match path with
      | [] => Dir w (es ++ [(name, c)])%list
      | n :: rest => Dir w (update n (fun d => add_child d rest name c) es)
      end
  end.

(** A location is the canonical absolute position of a node: its names
    from the node up to the root, innermost first; [[]] is the root. *)
Definition location := list string.

Definition node_at (t : node) (loc : location) : option node :=
  lookup t (rev loc).

(** One step of path resolution from the directory at [cur]. *)
Definition step (cur : location) (name : string) : location :=
  if name =? ".." then List.tl cur
  else if name =? "." then cur
  else name :: cur.

(** The limits of the kernel on a name and on the text of a path. *)
Definition NAME_MAX : nat := 255.
Definition PATH_MAX : nat := 4096.

(** [len(os.fsencode(s))]: one byte for a code point below 128, two for
    the others. *)
Fixpoint byte_length (s : string) : nat :=
  match s with
  | EmptyString => 0
  | String c rest =>
      (if (nat_of_ascii c <? 128)%nat then 1 else 2) + byte_length rest
  end.

Definition too_long (name : string) : bool :=
  (NAME_MAX <? byte_length name)%nat.

(** A text with a null character, which no system call takes. *)
Fixpoint has_nul (s : string) : bool :=
  match s with
  | EmptyString => false
  | String c rest => (nat_of_ascii c =? 0)%nat || has_nul rest
  end.

(** Path resolution, as the kernel does it name by name: every name is
    looked up in a directory, a name longer than [NAME_MAX] is refused
    there, and the last node has to exist. *)
Fixpoint walk (t : node) (cur : location) (names : list string)
    : errno + location :=
  match names with
  | [] =>
      match node_at t cur with
      | Some _ => inr cur
      | None => inl ENOENT
      end
  | n :: rest =>
      match node_at t cur with
      | None => inl ENOENT
      | Some File => inl ENOTDIR
      | Some (Dir _ _) =>
          if too_long n then inl ENAMETOOLONG else walk t (step cur n) rest
      end
  end.

(** Where resolution of a path starts: the root for an absolute path,
    the working directory for a relative one. *)
Definition start (cwd : location) (p : Path) : location :=
  if root p =? "" then cwd else [].

(** What Python and the kernel refuse before any look-up: a text with a
    null character ([ValueError]) and a text of [PATH_MAX] bytes or more. *)
Definition refused (p : Path) : option exn :=
  if has_nul (str p) then Some ValueError
  else if (PATH_MAX <=? byte_length (str p))%nat then
    Some (OSError ENAMETOOLONG)
  else None.

(** [os.stat(p)], as far as the node it finds. *)
Definition resolve (t : node) (cwd : location) (p : Path) : exn + location :=
  match refused p with
  | Some e => inl e
  | None =>
      match walk t (start cwd p) (tail p) with
      | inl e => inl (OSError e)
      | inr loc => inr loc
      end
  end.

(** [os.mkdir(p)]: the path must not exist, its parent must be a
    directory that can be written, and the new directory comes last in
    it. *)
Definition os_mkdir (t : node) (cwd : location) (p : Path) : exn + node :=
  match resolve t cwd p with
  | inr _ => inl (OSError EEXIST)
  | inl (OSError ENOENT) =>
      match walk t (start cwd p) (removelast (tail p)) with
      | inl e => inl (OSError e)
      | inr loc =>
          match node_at t loc with
          | Some (Dir true _) =>
              inr (add_child t (rev loc) (last (tail p) "") (Dir true []))
          | Some (Dir false _) => inl (OSError EACCES)
          | Some File => inl (OSError ENOTDIR)
          | None => inl (OSError ENOENT)
          end
      end
  | inl e => inl e
  end.

(** [pathlib._ignore_error]: the errors of [os.stat] that [exists] and
    [is_dir] turn into [False]. *)
Definition ignore_error (e : errno) : bool :=
  match e with
  | ENOENT | ENOTDIR => true
  | _ => false
  end.

(** [p.exists()]: its value, or the [OSError] it raises again; a
    [ValueError] of [os.stat] gives [False]. *)
Definition try_exists (t : node) (cwd : location) (p : Path) : errno + bool :=
  match resolve t cwd p with
  | inr _ => inr true
  | inl (OSError e) => if ignore_error e then inr false else inl e
  | inl _ => inr false
  end.

(** [p.is_dir()]: its value, or the [OSError] it raises again. *)
Definition try_is_dir (t : node) (cwd : location) (p : Path) : errno + bool :=
  match resolve t cwd p with
  | inr loc =>
      match node_at t loc with
      | Some (Dir _ _) => inr true
      | _ => inr false
      end
  | inl (OSError e) => if ignore_error e then inr false else inl e
  | inl _ => inr false
  end.

(** [p.exists()] returns [True]: [os.stat] succeeds. *)
Definition fs_exists (t : node) (cwd : location) (p : Path) : bool :=
  match resolve t cwd p with
  | inr _ => true
  | inl _ => false
  end.

(** [p.is_dir()] returns [True]. *)
Definition is_dir (t : node) (cwd : location) (p : Path) : bool :=
  match resolve t cwd p with
  | inr loc =>
      match node_at t loc with
      | Some (Dir _ _) => true
      | _ => false
      end
  | inl _ => false
  end.

(** [os.scandir(p)]: the names of the entries, in enumeration order;
    none when [p] is no directory. *)
Definition scandir (t : node) (cwd : location) (p : Path) : list string :=
  match resolve t cwd p with
  | inr loc =>
      match node_at t loc with
      | Some (Dir _ es) => map fst es
      | _ => []
      end
  | inl _ => []
  end.

(** [list(p.glob(pattern))] for a pattern of one segment: [select_from]
    asks [p.is_dir()] first, which may raise, and yields nothing when it
    is [False]; otherwise the entries whose name matches, each joined to
    [p]. *)
Definition fs_glob (t : node) (cwd : location) (p : Path) (pattern : string)
    : exn + list Path :=
  match try_is_dir t cwd p with
  | inl e => inl (OSError e)
  | inr false => inr []
  | inr true => inr (map (child p) (filter (fnmatch pattern) (scandir t cwd p)))
  end.

(** The handler [except OSError] of [Path.mkdir]: the error [e] is raised
    again unless [exist_ok] holds and [p.is_dir()], which may raise
    itself, is [True]. The file system stays as it is. *)
Definition mkdir_except (exist_ok : bool) (t : node) (cwd : location)
    (p : Path) (e : errno) : (exn * node) + node :=
  if negb exist_ok then inl (OSError e, t)
  else
    match try_is_dir t cwd p with
    | inl e' => inl (OSError e', t)
    | inr false => inl (OSError e, t)
    | inr true => inr t
    end.

(** [Path.mkdir(parents=False, exist_ok=exist_ok)]: the new file system,
    or the exception and the file system it leaves. [FileNotFoundError]
    is raised again, any other [OSError] goes to the handler, and a
    [ValueError] passes through. *)
Definition mkdir_single (exist_ok : bool) (t : node) (cwd : location)
    (p : Path) : (exn * node) + node :=
  match os_mkdir t cwd p with
  | inr t' => inr t'
  | inl (OSError ENOENT) => inl (OSError ENOENT, t)
  | inl (OSError e) => mkdir_except exist_ok t cwd p e
  | inl e => inl (e, t)
  end.

(** [Path.mkdir(parents=True, exist_ok=exist_ok)] on the path with root
    [r] and the parts [rtail] in reverse order: on [FileNotFoundError]
    the parent is made first, with [parents=True, exist_ok=True], unless
    the path is its own parent, and the directory is then made without
    [parents]. What the calls before an exception have made stays. *)
Fixpoint mkdir_parents (exist_ok : bool) (t : node) (cwd : location)
    (r : string) (rtail : list string) : (exn * node) + node :=
  let p := mkPath r (rev rtail) in
  match os_mkdir t cwd p with
  | inr t' => inr t'
  | inl (OSError ENOENT) =>
      match rtail with
      | [] => inl (OSError ENOENT, t)
      | _ :: rparent =>
          match mkdir_parents true t cwd r rparent with
          | inl failure => inl failure
          | inr t1 => mkdir_single exist_ok t1 cwd p
          end
      end
  | inl (OSError e) => mkdir_except exist_ok t cwd p e
  | inl e => inl (e, t)
  end.

(** [p.mkdir(parents=parents, exist_ok=exist_ok)] *)
Definition mkdir (parents exist_ok : bool) (t : node) (cwd : location)
    (p : Path) : (exn * node) + node :=
  if parents then mkdir_parents exist_ok t cwd (root p) (rev (tail p))
  else mkdir_single exist_ok t cwd p.

(** ** The runtime: results, events and the world *)

(** How a call ends: it returns, [sys.exit] was called, or an exception
    that nothing catches was raised. *)
Inductive result (A : Type) : Type :=
| Return (a : A)
| SystemExit (code : Z)
| Raised (e : exn).

Arguments Return {A} a.
Arguments SystemExit {A} code.
Arguments Raised {A} e.

(** What the program does to the outside, in order. *)
Inductive event : Type :=
| EvPrint (line : string)
| EvFlush
| EvStat (path : string)
| EvMkdir (path : string)
| EvRun (args : list string)
| EvScandir (path : string).

Record world : Type := mkWorld {
  w_cwd : location;
  w_fs : node;
  w_trace : list event
}.

Record CompletedProcess : Type := mkCompleted {
  returncode : Z;
  stdout : string;
  stderr : string
}.

Definition M (A : Type) : Type := world -> result A * world.

Definition ret {A : Type} (a : A) : M A := fun w => (Return a, w).

Definition bind {A B : Type} (c : M A) (k : A -> M B) : M B :=
  fun w =>
    match c w with
    | (Return a, w') => k a w'
    | (SystemExit code, w') => (SystemExit code, w')
    | (Raised e, w') => (Raised e, w')
    end.

Declare Scope py_scope.
Delimit Scope py_scope with py.
Notation "x <- c ;; k" := (bind c (fun x => k))
  (at level 61, c at next level, right associativity) : py_scope.
Notation "c ;; k" := (bind c (fun _ => k))
  (at level 61, right associativity) : py_scope.
Local Open Scope py_scope.

Definition emit (e : event) (w : world) : world :=
  mkWorld (w_cwd w) (w_fs w) (w_trace w ++ [e])%list.

Definition set_fs (t : node) (w : world) : world :=
  mkWorld (w_cwd w) t (w_trace w).

Definition raise {A : Type} (e : exn) : M A := fun w => (Raised e, w).

(** [sys.exit(code)] *)
Definition sys_exit {A : Type} (code : Z) : M A := fun w => (SystemExit code, w).

(** [print(s)] *)
Definition print (s : string) : M unit := fun w => (Return tt, emit (EvPrint s) w).

(** [sys.stdout.flush()] *)
Definition flush : M unit := fun w => (Return tt, emit EvFlush w).

(** [l[i]] *)
Definition index {A : Type} (l : list A) (i : nat) : M A :=
  match nth_error l i with
  | Some x => ret x
  | None => raise IndexError
  end.

(** [if b: body] *)
Definition when (b : bool) (body : M unit) : M unit :=
  if b then body else ret tt.

(** [p.exists()] *)
Definition path_exists (p : Path) : M bool :=
  fun w =>
    let w' := emit (EvStat (str p)) w in
    match try_exists (w_fs w) (w_cwd w) p with
    | inr b => (Return b, w')
    | inl e => (Raised (OSError e), w')
    end.

(** [p.mkdir(parents=..., exist_ok=...)] *)
Definition path_mkdir (p : Path) (parents exist_ok : bool) : M unit :=
  fun w =>
    let w' := emit (EvMkdir (str p)) w in
    match mkdir parents exist_ok (w_fs w) (w_cwd w) p with
    | inr t => (Return tt, set_fs t w')
    | inl (e, t) => (Raised e, set_fs t w')
    end.

(** [list(p.glob(pattern))] *)
Definition path_glob (p : Path) (pattern : string) : M (list Path) :=
  fun w =>
    let w' := emit (EvScandir (str p)) w in
    match fs_glob (w_fs w) (w_cwd w) p pattern with
    | inr paths => (Return paths, w')
    | inl e => (Raised e, w')
    end.

Definition usage : string :=
  "Usage: generate_splat.py <input_image> <output_dir>".

Section Program.

(** The operating system's part of [subprocess.run(args,
    capture_output=True, text=True)]: the child cannot be started (an
    exception), or it runs to its end, leaving its exit code, its two
    captured streams and the file system as it made it. *)
Variable execute :
  list string -> location -> node -> exn + (CompletedProcess * node).

Definition subprocess_run (args : list string) : M CompletedProcess :=
  fun w =>
    let w' := emit (EvRun args) w in
    match execute args (w_cwd w) (w_fs w) with
    | inr (cp, t) => (Return cp, set_fs t w')
    | inl e => (Raised e, w')
    end.

(** [main()], with [sys.argv] as its argument. *)
Definition main (argv : list string) : M unit :=
  when (length argv <? 3)%nat
    (print (json_dumps [("error", usage)]) ;;
     sys_exit 1) ;;

  a1 <- index argv 1 ;;
  let input_image := Path_of a1 in
  a2 <- index argv 2 ;;
  let output_dir := Path_of a2 in

  found <- path_exists input_image ;;
  when (negb found)
    (print (json_dumps [("error", "Input image not found: " ++ str input_image)]) ;;
     sys_exit 1) ;;

  path_mkdir output_dir true true ;;

  print (json_dumps [("status", "starting"); ("message", "Loading SHARP model...")]) ;;
  flush ;;

  result <- subprocess_run
              ["sharp"; "predict"; "-i"; str input_image; "-o"; str output_dir] ;;

  when (negb (returncode result =? 0)%Z)
    (print (json_dumps [("error", "SHARP failed: " ++ stderr result)]) ;;
     sys_exit 1) ;;

  ply_files <- path_glob output_dir "*.ply" ;;
  when (match ply_files with [] => true | _ => false end)
    (print (json_dumps [("error", "No .ply file generated")]) ;;
     sys_exit 1) ;;

  output_ply <- index ply_files 0 ;;
  print (json_dumps [("status", "complete");
                     ("output_path", str output_ply);
                     ("message", "3D splat generated successfully!")]).

(** The script, run as a process from the working directory [cwd] on the
    file system [t]. *)
Definition run (argv : list string) (cwd : location) (t : node)
    : result unit * world :=
  main argv (mkWorld cwd t []).

End Program.

(** The exit status of the interpreter: 0 when [main] returns, the low
    byte of the code of [sys.exit], 1 after an uncaught exception. *)
Definition exit_status (r : result unit) : Z :=
  match r with
  | Return _ => 0
  | SystemExit code => Z.land code 255
  | Raised _ => 1
  end.

(** The lines printed, in order. *)
Fixpoint printed (tr : list event) : list string :=
  match tr with
  | [] => []
  | EvPrint l :: rest => l :: printed rest
  | _ :: rest => printed rest
  end.

(** What a reader of standard output has received when the first child
    process is started: the lines flushed so far. [None] when no child is
    started. *)
Fixpoint seen_at_run (tr : list event) (buffered seen : list string)
    : option (list string) :=
  match tr with
  | [] => None
  | EvPrint l :: rest => seen_at_run rest (buffered ++ [l])%list seen
  | EvFlush :: rest => seen_at_run rest [] (seen ++ buffered)%list
  | EvRun _ :: _ => Some seen
  | _ :: rest => seen_at_run rest buffered seen
  end.

(** ** The vocabulary of the statements

    The three shapes of the dict that [main] prints, and the arguments
    that follow the program name. *)

Definition error_message (text : string) : dict := [("error", text)].

Definition starting_message : dict :=
  [("status", "starting"); ("message", "Loading SHARP model...")].

Definition complete_message (path : string) : dict :=
  [("status", "complete");
   ("output_path", path);
   ("message", "3D splat generated successfully!")].

(** The message that ends a run is an error or a completion. *)
Definition terminal (d : dict) : Prop :=
  (exists text, d = error_message text) \/ (exists path, d = complete_message path).

Definition positional (argv : list string) : list string := List.tl argv.

(** A text between double quotes, as it stands. *)
Definition quoted (s : string) : string := String dquote (s ++ str1 dquote).

(** The argument vector that [main] gives to [subprocess.run]. *)
Definition sharp_args (input_image output_dir : Path) : list string :=
  ["sharp"; "predict"; "-i"; str input_image; "-o"; str output_dir].

(** The events of every run that gets as far as starting the tool. *)
Definition prelude (input_image output_dir : Path) : list event :=
  [EvStat (str input_image);
   EvMkdir (str output_dir);
   EvPrint (json_dumps starting_message);
   EvFlush;
   EvRun (sharp_args input_image output_dir)].

(** ** Auxiliary notions of the proofs *)

(** A pattern without [*] and [?] matches itself only. *)
Fixpoint literal (pat : string) : bool :=
  match pat with
  | EmptyString => true
  | String c pat' =>
      negb (Ascii.eqb c "*") && negb (Ascii.eqb c "?") && literal pat'
  end.




(** Two nodes of the same kind: two files or two directories. *)
Definition same_kind (a b : node) : Prop :=
  match a, b with
  | File, File => True
  | Dir _ _, Dir _ _ => True
  | _, _ => False
  end.

(** ** Notions of the further properties *)

(** The events of a run other than its prints. *)
Fixpoint non_prints (tr : list event) : list event :=
  match tr with
  | [] => []
  | EvPrint _ :: rest => non_prints rest
  | e :: rest => e :: non_prints rest
  end.

(** The steps of [main] on the outside, in the order of the source. *)
Definition pipeline (input_image output_dir : Path) : list event :=
  [EvStat (str input_image);
   EvMkdir (str output_dir);
   EvFlush;
   EvRun (sharp_args input_image output_dir);
   EvScandir (str output_dir)].

(** The outcome of a child with its captured streams replaced: standard
    output by [f], standard error, when the exit code is zero, by [g]. *)
Definition recapture (f g : string -> string)
    (r : exn + (CompletedProcess * node)) : exn + (CompletedProcess * node) :=
  match r with
  | inl e => inl e
  | inr (cp, t) =>
      inr (mkCompleted (returncode cp) (f (stdout cp))
             (if (returncode cp =? 0)%Z then g (stderr cp) else stderr cp),
           t)
  end.

(** Every node of [t] is in [t1], at the same location and of the same
    kind. *)
Definition keeps (t t1 : node) : Prop :=
  forall loc x,
    node_at t loc = Some x ->
    exists x', node_at t1 loc = Some x' /\ same_kind x x'.

(** ** An example world

    A home directory with an image and a read-only directory, and three
    behaviours of the tool. *)

Definition example_fs : node :=
  Dir true
    [("home",
      Dir true
        [("u", Dir true [("in.png", File); ("ro", Dir false [])])]);
     ("tmp", Dir true [])].

Definition example_cwd : location := ["u"; "home"].

(** A tool that writes a log and a model into the directory after [-o]. *)
Definition tool_writes_ply (args : list string) (cwd : location) (t : node)
    : exn + (CompletedProcess * node) :=
  match args with
  | [_; _; _; _; _; o] =>
      match resolve t cwd (Path_of o) with
      | inr loc =>
          inr (mkCompleted 0 "done" "",
               add_child (add_child t (rev loc) "log.txt" File)
                 (rev loc) "model.ply" File)
      | inl _ => inr (mkCompleted 2 "" "no output directory", t)
      end
  | _ => inl (OSError ENOENT)
  end.

(** A tool that fails, and one that succeeds without writing anything. *)
Definition tool_fails (args : list string) (cwd : location) (t : node)
    : exn + (CompletedProcess * node) :=
  inr (mkCompleted 1 "" "boom", t).

Definition tool_writes_nothing (args : list string) (cwd : location) (t : node)
    : exn + (CompletedProcess * node) :=
  inr (mkCompleted 0 "" "", t).


(** A name of 256 bytes, one more than [NAME_MAX]. *)
Definition long_name : string :=
  Eval vm_compute in String.concat "" (List.repeat "0123456789abcdef" 16).

Definition example_fs_out : node :=
  Eval vm_compute in
    match mkdir true true example_fs example_cwd (Path_of "out") with
    | inr t => t
    | inl _ => example_fs
    end.

Definition example_fs_model : node :=
  Eval vm_compute in
    match tool_writes_ply (sharp_args (Path_of "in.png") (Path_of "out"))
            example_cwd example_fs_out with
    | inr (_, t) => t
    | inl _ => example_fs_out
    end.

(** * Properties *)

Arguments json_dumps : simpl never.
Arguments str : simpl never.
Arguments Path_of : simpl never.
Arguments mkdir : simpl never.
Arguments fs_exists : simpl never.
Arguments fs_glob : simpl never.
Arguments try_exists : simpl never.
Arguments try_is_dir : simpl never.
Arguments refused : simpl never.
Arguments too_long : simpl never.

Ltac exec :=
  unfold run, main, bind, when, index, path_exists, path_mkdir,
    subprocess_run, path_glob, print, flush, sys_exit, raise, ret,
    emit, set_fs;
  cbn.

(** *** Matching [*.ply] *)

Lemma fnmatch_literal (pat : string) :
  literal pat = true -> forall name, fnmatch pat name = (name =? pat).
Proof.
  induction pat as [|c pat IH]; intros H name; cbn [fnmatch].
  - reflexivity.
  - cbn [literal] in H.
    destruct (Ascii.eqb c "*"); [discriminate|].
    destruct (Ascii.eqb c "?"); [discriminate|].
    destruct name as [|d name]; cbn [String.eqb]; [reflexivity|].
    rewrite (IH H), (Ascii.eqb_sym d c).
    destruct (Ascii.eqb c d); reflexivity.
Qed.

(** The pattern of [main] selects the names that end in [.ply]. *)
Lemma fnmatch_star_ply (name : string) :
  fnmatch "*.ply" name = endswith name ".ply".
Proof.
  induction name as [|c name IH].
  - reflexivity.
  - change (fnmatch "*.ply" (String c name))
      with (fnmatch ".ply" (String c name) || fnmatch "*.ply" name).
    rewrite IH, (fnmatch_literal ".ply" eq_refl). reflexivity.
Qed.

Lemma filter_find {A : Type} (f : A -> bool) (l : list A) (x : A) :
  find f l = Some x -> exists rest, filter f l = x :: rest.
Proof.
  induction l as [|a l IH]; cbn; [discriminate|].
  destruct (f a) eqn:E.
  - intros [= ->]. eauto.
  - exact IH.
Qed.

Lemma filter_find_none {A : Type} (f : A -> bool) (l : list A) :
  find f l = None -> filter f l = [].
Proof.
  induction l as [|a l IH]; cbn; [reflexivity|].
  destruct (f a); [discriminate | exact IH].
Qed.

(** When [p.is_dir()] does not raise, the glob is the entries of [p]
    whose name matches, in enumeration order. *)
Lemma fs_glob_value (t : node) (cwd : location) (p : Path) (pattern : string)
    (b : bool) :
  try_is_dir t cwd p = inr b ->
  fs_glob t cwd p pattern =
    inr (map (child p) (filter (fnmatch pattern) (scandir t cwd p))).
Proof.
  unfold fs_glob, try_is_dir, scandir. intros H.
  destruct (resolve t cwd p) as [[e| |]|loc].
  - destruct (ignore_error e); [|discriminate]. reflexivity.
  - reflexivity.
  - reflexivity.
  - destruct (node_at t loc) as [[|w es]|]; reflexivity.
Qed.

(** The first result of the glob is the first entry, in enumeration
    order, whose name ends in [.ply]. *)
Lemma glob_ply_first (t : node) (cwd : location) (p : Path) (name : string)
    (b : bool) :
  try_is_dir t cwd p = inr b ->
  find (fun n => endswith n ".ply") (scandir t cwd p) = Some name ->
  exists rest, fs_glob t cwd p "*.ply" = inr (child p name :: rest).
Proof.
  intros Hd H. rewrite (fs_glob_value _ _ _ _ _ Hd).
  rewrite (filter_ext _ _ fnmatch_star_ply).
  destruct (filter_find _ _ _ H) as [rest ->]. cbn. eauto.
Qed.

Lemma glob_ply_none (t : node) (cwd : location) (p : Path) (b : bool) :
  try_is_dir t cwd p = inr b ->
  find (fun n => endswith n ".ply") (scandir t cwd p) = None ->
  fs_glob t cwd p "*.ply" = inr [].
Proof.
  intros Hd H. rewrite (fs_glob_value _ _ _ _ _ Hd).
  rewrite (filter_ext _ _ fnmatch_star_ply), (filter_find_none _ _ H).
  reflexivity.
Qed.

(** *** Paths and their text

    The text of a parsed path, parsed again, is the same path: a message
    that shows [str(p)] names [p]. *)



Lemma split_not_nil (s : string) : split slash s <> [].
Proof.
  induction s as [|c s IH]; cbn [split]; [discriminate|].
  destruct (Ascii.eqb c slash); [discriminate|].
  destruct (split slash s); discriminate.
Qed.











(** *** The file system: lookups after [add_child] *)

Lemma assoc_app_some (name : string) (es es' : list (string * node)) (c : node) :
  assoc name es = Some c -> assoc name (es ++ es') = Some c.
Proof.
  induction es as [|[n d] es IH]; cbn; [discriminate|].
  destruct (n =? name); auto.
Qed.

Lemma assoc_app_none (name : string) (es es' : list (string * node)) :
  assoc name es = None -> assoc name (es ++ es') = assoc name es'.
Proof.
  induction es as [|[n d] es IH]; cbn; [reflexivity|].
  destruct (n =? name); [discriminate | exact IH].
Qed.

Lemma assoc_update (m a : string) (f : node -> node) (es : list (string * node)) :
  assoc m (update a f es) =
    if a =? m then option_map f (assoc m es) else assoc m es.
Proof.
  induction es as [|[n d] es IH]; cbn.
  - destruct (a =? m); reflexivity.
  - destruct (String.eqb_spec n a) as [->|Hna]; cbn.
    + destruct (a =? m); reflexivity.
    + destruct (String.eqb_spec n m) as [->|Hnm].
      * destruct (String.eqb_spec a m) as [->|_]; [contradiction | reflexivity].
      * exact IH.
Qed.

Lemma lookup_app (t : node) (p q : list string) :
  lookup t (p ++ q) =
    match lookup t p with
    | Some c => lookup c q
    | None => None
    end.
Proof.
  revert t. induction p as [|n p IH]; intros t; cbn; [reflexivity|].
  destruct t as [|w es]; [reflexivity|].
  destruct (assoc n es); [apply IH | reflexivity].
Qed.

(** Adding an entry keeps every node that was there, with its kind. *)
Lemma lookup_add_child_kept (name : string) (c : node) (q : list string) :
  forall (t : node) (ap : list string) (x : node),
    lookup t q = Some x ->
    exists x', lookup (add_child t ap name c) q = Some x' /\ same_kind x x'.
Proof.
  induction q as [|m q IH]; intros t ap x; cbn [lookup].
  - intros [= <-]. eexists. split; [reflexivity|].
    destruct t, ap; exact I.
  - destruct t as [|w es]; [discriminate|].
    destruct (assoc m es) as [ch|] eqn:E; [|discriminate].
    intros H. destruct ap as [|a ap]; cbn [add_child lookup].
    + rewrite (assoc_app_some _ _ _ _ E). exists x. split; [exact H|].
      destruct x; exact I.
    + rewrite assoc_update, E. destruct (a =? m); cbn [option_map].
      * apply IH. exact H.
      * exists x. split; [exact H|]. destruct x; exact I.
Qed.

(** The entry added to a directory that has none of that name is found
    under that name. *)
Lemma lookup_add_child_new (name : string) (c : node) (ap : list string) :
  forall (t : node) (w : bool) (es : list (string * node)),
    lookup t ap = Some (Dir w es) ->
    assoc name es = None ->
    lookup (add_child t ap name c) (ap ++ [name]) = Some c.
Proof.
  induction ap as [|a ap IH]; intros t w es; cbn [lookup app].
  - intros [= ->] Hnone. cbn [add_child lookup].
    rewrite (assoc_app_none _ _ _ Hnone). cbn. rewrite String.eqb_refl.
    reflexivity.
  - destruct t as [|w0 es0]; [discriminate|].
    destruct (assoc a es0) as [ch|] eqn:E; [|discriminate].
    intros H Hnone. cbn [add_child lookup].
    rewrite assoc_update, String.eqb_refl, E. cbn [option_map].
    exact (IH _ _ _ H Hnone).
Qed.

Lemma node_at_cons (t : node) (n : string) (loc : location) :
  node_at t (n :: loc) =
    match node_at t loc with
    | Some c => lookup c [n]
    | None => None
    end.
Proof. unfold node_at. cbn [rev]. apply lookup_app. Qed.

(** The parent of a node that exists exists. *)
Lemma node_at_tl (t : node) (loc : location) (x : node) :
  node_at t loc = Some x -> exists y, node_at t (List.tl loc) = Some y.
Proof.
  destruct loc as [|n loc]; cbn [List.tl]; [eauto|].
  rewrite node_at_cons. destruct (node_at t loc); [eauto | discriminate].
Qed.

(** *** Path resolution *)

Lemma walk_app (t : node) (names : list string) (n : string) :
  forall cur,
    walk t cur (names ++ [n]) =
      match walk t cur names with
      | inr loc => walk t loc [n]
      | inl e => inl e
      end.
Proof.
  induction names as [|m names IH]; intros cur; cbn [walk app].
  - destruct (node_at t cur) as [[|w es]|] eqn:E; cbn [walk]; rewrite ?E;
      reflexivity.
  - destruct (node_at t cur) as [[|w es]|]; try reflexivity.
    destruct (too_long m); [reflexivity | apply IH].
Qed.

(** A resolution that succeeds ends on a node. *)
Lemma walk_node (t : node) (names : list string) :
  forall cur loc, walk t cur names = inr loc -> exists x, node_at t loc = Some x.
Proof.
  induction names as [|m names IH]; intros cur loc; cbn [walk].
  - destruct (node_at t cur) eqn:E; [|discriminate].
    intros [= <-]. eauto.
  - destruct (node_at t cur) as [[|w es]|]; try discriminate.
    destruct (too_long m); [discriminate | apply IH].
Qed.

(** A resolution that succeeds succeeds after [add_child], at the same
    location. *)
Lemma walk_add_child (t : node) (ap : list string) (name : string) (c : node)
    (names : list string) :
  forall cur loc,
    walk t cur names = inr loc ->
    walk (add_child t ap name c) cur names = inr loc.
Proof.
  induction names as [|m names IH]; intros cur loc; cbn [walk].
  - destruct (node_at t cur) as [x|] eqn:E; [|discriminate].
    destruct (lookup_add_child_kept name c _ t ap x E) as (x' & E' & _).
    unfold node_at. rewrite E'. auto.
  - destruct (node_at t cur) as [x|] eqn:E; [|discriminate].
    destruct (lookup_add_child_kept name c _ t ap x E) as (x' & E' & K).
    unfold node_at at 1. rewrite E'.
    destruct x as [|w es]; [discriminate|].
    destruct x' as [|w' es']; [destruct K|].
    destruct (too_long m); [discriminate | apply IH].
Qed.

(** *** [os.mkdir] and [Path.mkdir] *)

Lemma path_eta (p : Path) : mkPath (root p) (tail p) = p.
Proof. destruct p; reflexivity. Qed.

Lemma refused_cases (p : Path) :
  refused p = None \/ refused p = Some ValueError \/
  refused p = Some (OSError ENAMETOOLONG).
Proof.
  unfold refused. destruct (has_nul (str p)); auto.
  destruct (PATH_MAX <=? byte_length (str p))%nat; auto.
Qed.

Lemma resolve_inr (t : node) (cwd : location) (p : Path) (loc : location) :
  resolve t cwd p = inr loc <->
  refused p = None /\ walk t (start cwd p) (tail p) = inr loc.
Proof.
  unfold resolve.
  destruct (refused_cases p) as [R|[R|R]]; rewrite R.
  - destruct (walk t (start cwd p) (tail p)); split.
    + discriminate.
    + intros [_ H]. discriminate.
    + intros [= ->]. auto.
    + intros [_ [= ->]]. reflexivity.
  - split; [discriminate | intros [H _]; discriminate].
  - split; [discriminate | intros [H _]; discriminate].
Qed.

Lemma resolve_enoent (t : node) (cwd : location) (p : Path) :
  resolve t cwd p = inl (OSError ENOENT) ->
  refused p = None /\ walk t (start cwd p) (tail p) = inl ENOENT.
Proof.
  unfold resolve.
  destruct (refused_cases p) as [R|[R|R]]; rewrite R; try discriminate.
  destruct (walk t (start cwd p) (tail p)); [|discriminate].
  intros [= ->]. auto.
Qed.

Lemma try_is_dir_true (t : node) (cwd : location) (p : Path) :
  try_is_dir t cwd p = inr true <-> is_dir t cwd p = true.
Proof.
  unfold try_is_dir, is_dir.
  destruct (resolve t cwd p) as [[e| |]|loc].
  - destruct (ignore_error e); split; discriminate.
  - split; discriminate.
  - split; discriminate.
  - destruct (node_at t loc) as [[|w es]|]; split;
      first [discriminate | reflexivity].
Qed.

Lemma try_exists_true (t : node) (cwd : location) (p : Path) :
  try_exists t cwd p = inr true <-> fs_exists t cwd p = true.
Proof.
  unfold try_exists, fs_exists.
  destruct (resolve t cwd p) as [[e| |]|loc].
  - destruct (ignore_error e); split; discriminate.
  - split; discriminate.
  - split; discriminate.
  - split; reflexivity.
Qed.

(** The names of a resolution that succeeds are short enough, and with
    such names no resolution fails on a name. *)
Lemma walk_short (t : node) (names : list string) :
  forall cur loc,
    walk t cur names = inr loc ->
    Forall (fun n => too_long n = false) names.
Proof.
  induction names as [|m names IH]; intros cur loc; cbn [walk];
    [constructor|].
  destruct (node_at t cur) as [[|w es]|]; try discriminate.
  destruct (too_long m) eqn:E; [discriminate|].
  intros H. constructor; [exact E | exact (IH _ _ H)].
Qed.

Lemma walk_ignored (t : node) (names : list string) :
  Forall (fun n => too_long n = false) names ->
  forall cur e, walk t cur names = inl e -> ignore_error e = true.
Proof.
  induction 1 as [|m names Hm _ IH]; intros cur e; cbn [walk].
  - destruct (node_at t cur); [discriminate|]. intros [= <-]. reflexivity.
  - destruct (node_at t cur) as [[|w es]|]; try (intros [= <-]; reflexivity).
    rewrite Hm. apply IH.
Qed.

(** A path that is a directory in one file system is one on which
    [is_dir] raises in no file system. *)
Lemma try_is_dir_total (t1 : node) (cwd : location) (p : Path) :
  is_dir t1 cwd p = true ->
  forall t2, exists b, try_is_dir t2 cwd p = inr b.
Proof.
  unfold is_dir. destruct (resolve t1 cwd p) as [|loc] eqn:E; [discriminate|].
  intros _ t2. apply resolve_inr in E as [R W].
  unfold try_is_dir, resolve. rewrite R.
  destruct (walk t2 (start cwd p) (tail p)) as [e|loc2] eqn:W2.
  - rewrite (walk_ignored _ _ (walk_short _ _ _ _ W) _ _ W2). eauto.
  - destruct (node_at t2 loc2) as [[|w es]|]; eauto.
Qed.

(** After [os.mkdir] has succeeded the path is a directory. *)
Lemma os_mkdir_is_dir (t t1 : node) (cwd : location) (p : Path) :
  os_mkdir t cwd p = inr t1 -> is_dir t1 cwd p = true.
Proof.
  unfold os_mkdir.
  destruct (resolve t cwd p) as [[[]| |]|] eqn:E; try discriminate.
  apply resolve_enoent in E as [R Efull].
  unfold is_dir, resolve. rewrite R. clear R.
  destruct p as [r names]. unfold start in *. cbn [root tail] in *.
  set (st := if r =? "" then cwd else []) in *.
  destruct (walk t st (removelast names)) as [|loc] eqn:Epar; [discriminate|].
  destruct (node_at t loc) as [[|[|] es]|] eqn:Eloc; try discriminate.
  intros [= <-].
  assert (Hne : names <> []).
  { intros ->. cbn [removelast] in Epar. rewrite Epar in Efull. discriminate. }
  rewrite (app_removelast_last "" Hne) in Efull.
  rewrite (app_removelast_last "" Hne) at 2.
  set (ns := removelast names) in *.
  set (n := last names "") in *.
  rewrite walk_app, Epar in Efull.
  cbn [walk] in Efull. rewrite Eloc in Efull.
  destruct (too_long n) eqn:Elong; [discriminate|].
  assert (Hstep : step loc n = n :: loc /\ node_at t (n :: loc) = None).
  { unfold step in *.
    destruct (n =? "..").
    - destruct (node_at_tl _ _ _ Eloc) as [y Hy]. rewrite Hy in Efull.
      discriminate.
    - destruct (n =? ".").
      + rewrite Eloc in Efull. discriminate.
      + split; [reflexivity|].
        destruct (node_at t (n :: loc)); [discriminate | reflexivity]. }
  destruct Hstep as [Hstep Hnone].
  assert (Hassoc : assoc n es = None).
  { rewrite node_at_cons, Eloc in Hnone. cbn in Hnone.
    destruct (assoc n es); [discriminate | reflexivity]. }
  set (t1 := add_child t (rev loc) n (Dir true [])).
  pose proof (walk_add_child t (rev loc) n (Dir true []) ns st loc Epar) as Hw.
  fold t1 in Hw. rewrite walk_app, Hw.
  cbn [walk].
  destruct (lookup_add_child_kept n (Dir true []) _ t (rev loc) _ Eloc)
    as (x' & Hx' & K).
  fold t1 in Hx'. unfold node_at at 1. rewrite Hx'.
  destruct x' as [|w' es']; [destruct K|].
  rewrite Elong, Hstep.
  assert (Hnew : node_at t1 (n :: loc) = Some (Dir true [])).
  { unfold node_at. cbn [rev].
    exact (lookup_add_child_new n _ _ _ _ _ Eloc Hassoc). }
  rewrite Hnew, Hnew. reflexivity.
Qed.

Lemma mkdir_except_inr (exist_ok : bool) (t t1 : node) (cwd : location)
    (p : Path) (e : errno) :
  mkdir_except exist_ok t cwd p e = inr t1 ->
  t1 = t /\ is_dir t cwd p = true.
Proof.
  unfold mkdir_except. destruct exist_ok; cbn [negb]; [|discriminate].
  destruct (try_is_dir t cwd p) as [|[|]] eqn:D; try discriminate.
  intros [= <-]. split; [reflexivity | now apply try_is_dir_true].
Qed.

Lemma mkdir_single_is_dir (exist_ok : bool) (t t1 : node) (cwd : location)
    (p : Path) :
  mkdir_single exist_ok t cwd p = inr t1 -> is_dir t1 cwd p = true.
Proof.
  unfold mkdir_single.
  destruct (os_mkdir t cwd p) as [[e| |]|t'] eqn:E; try discriminate.
  - destruct e; try discriminate;
      intros H; apply mkdir_except_inr in H as [-> D]; exact D.
  - intros [= <-]. exact (os_mkdir_is_dir _ _ _ _ E).
Qed.

Lemma mkdir_parents_eq (exist_ok : bool) (t : node) (cwd : location)
    (r : string) (rtail : list string) :
  mkdir_parents exist_ok t cwd r rtail =
    let p := mkPath r (rev rtail) in
    match os_mkdir t cwd p with
    | inr t' => inr t'
    | inl (OSError ENOENT) =>
        match rtail with
        | [] => inl (OSError ENOENT, t)
        | _ :: rparent =>
            match mkdir_parents true t cwd r rparent with
            | inl failure => inl failure
            | inr t1 => mkdir_single exist_ok t1 cwd p
            end
        end
    | inl (OSError e) => mkdir_except exist_ok t cwd p e
    | inl e => inl (e, t)
    end.
Proof. destruct rtail; reflexivity. Qed.

Lemma mkdir_parents_is_dir (exist_ok : bool) (t t1 : node) (cwd : location)
    (r : string) (rtail : list string) :
  mkdir_parents exist_ok t cwd r rtail = inr t1 ->
  is_dir t1 cwd (mkPath r (rev rtail)) = true.
Proof.
  rewrite mkdir_parents_eq. cbv zeta.
  destruct (os_mkdir t cwd (mkPath r (rev rtail))) as [[e| |]|t'] eqn:E;
    try discriminate.
  - destruct e;
      try (intros H; apply mkdir_except_inr in H as [-> D]; exact D).
    destruct rtail as [|n rparent]; [discriminate|].
    destruct (mkdir_parents true t cwd r rparent) as [|t0]; [discriminate|].
    apply mkdir_single_is_dir.
  - intros [= <-]. exact (os_mkdir_is_dir _ _ _ _ E).
Qed.

(** After [mkdir] has succeeded the path is a directory. *)
Lemma mkdir_is_dir (parents exist_ok : bool) (t t1 : node) (cwd : location)
    (p : Path) :
  mkdir parents exist_ok t cwd p = inr t1 -> is_dir t1 cwd p = true.
Proof.
  unfold mkdir. destruct parents.
  - intros H. apply mkdir_parents_is_dir in H.
    rewrite rev_involutive, path_eta in H. exact H.
  - apply mkdir_single_is_dir.
Qed.

(** On a directory that exists, [mkdir] with [exist_ok] changes nothing
    and raises nothing. *)
Lemma mkdir_existing (parents : bool) (t : node) (cwd : location) (p : Path) :
  is_dir t cwd p = true -> mkdir parents true t cwd p = inr t.
Proof.
  intros D.
  assert (E : os_mkdir t cwd p = inl (OSError EEXIST)).
  { unfold os_mkdir. unfold is_dir in D.
    destruct (resolve t cwd p); [discriminate | reflexivity]. }
  assert (X : mkdir_except true t cwd p EEXIST = inr t).
  { unfold mkdir_except. cbn [negb].
    apply try_is_dir_true in D. rewrite D. reflexivity. }
  unfold mkdir. destruct parents.
  - rewrite mkdir_parents_eq. cbv zeta.
    rewrite rev_involutive, path_eta, E. exact X.
  - unfold mkdir_single. rewrite E. exact X.
Qed.

Lemma is_dir_exists (t : node) (cwd : location) (p : Path) :
  is_dir t cwd p = true -> fs_exists t cwd p = true.
Proof.
  unfold is_dir, fs_exists. destruct (resolve t cwd p); [discriminate | reflexivity].
Qed.

(** The glob of [main] does not raise on a path that [mkdir] has made. *)
Lemma glob_after_mkdir (parents exist_ok : bool) (t t1 : node)
    (cwd : location) (p : Path) :
  mkdir parents exist_ok t cwd p = inr t1 ->
  forall t2, exists b, try_is_dir t2 cwd p = inr b.
Proof.
  intros H. exact (try_is_dir_total _ _ _ (mkdir_is_dir _ _ _ _ _ _ H)).
Qed.

Section Flow.

Variable execute :
  list string -> location -> node -> exn + (CompletedProcess * node).

(** [main] with at least two positional arguments, branch by branch. *)
Lemma run_valid_args (prog a1 a2 : string) (rest : list string)
    (cwd : location) (t : node) :
  let input_image := Path_of a1 in
  let output_dir := Path_of a2 in
  run execute (prog :: a1 :: a2 :: rest) cwd t =
    match try_exists t cwd input_image with
    | inl e =>
        (Raised (OSError e), mkWorld cwd t [EvStat (str input_image)])
    | inr false =>
        (SystemExit 1,
         mkWorld cwd t
           [EvStat (str input_image);
            EvPrint (json_dumps
                       (error_message
                          ("Input image not found: " ++ str input_image)))])
    | inr true =>
        match mkdir true true t cwd output_dir with
        | inl (e, t') =>
            (Raised e,
             mkWorld cwd t'
               [EvStat (str input_image); EvMkdir (str output_dir)])
        | inr t1 =>
            match execute (sharp_args input_image output_dir) cwd t1 with
            | inl e =>
                (Raised e, mkWorld cwd t1 (prelude input_image output_dir))
            | inr (cp, t2) =>
                if negb (returncode cp =? 0)%Z then
                  (SystemExit 1,
                   mkWorld cwd t2
                     (prelude input_image output_dir ++
                      [EvPrint (json_dumps
                                  (error_message
                                     ("SHARP failed: " ++ stderr cp)))])%list)
                else
                  match fs_glob t2 cwd output_dir "*.ply" with
                  | inl e =>
                      (Raised e,
                       mkWorld cwd t2
                         (prelude input_image output_dir ++
                          [EvScandir (str output_dir)])%list)
                  | inr [] =>
                      (SystemExit 1,
                       mkWorld cwd t2
                         (prelude input_image output_dir ++
                          [EvScandir (str output_dir);
                           EvPrint
                             (json_dumps
                                (error_message "No .ply file generated"))])%list)
                  | inr (output_ply :: _) =>
                      (Return tt,
                       mkWorld cwd t2
                         (prelude input_image output_dir ++
                          [EvScandir (str output_dir);
                           EvPrint
                             (json_dumps
                                (complete_message (str output_ply)))])%list)
                  end
            end
        end
    end.
Proof.
  exec. unfold sharp_args.
  destruct (try_exists t cwd (Path_of a1)) as [e|[|]]; cbn; try reflexivity.
  destruct (mkdir true true t cwd (Path_of a2)) as [[e t']|t1]; cbn;
    [reflexivity|].
  destruct (execute _ cwd t1) as [e|[cp t2]]; cbn; [reflexivity|].
  destruct (returncode cp =? 0)%Z; cbn; [|reflexivity].
  destruct (fs_glob t2 cwd (Path_of a2) "*.ply") as [e|[|output_ply others]];
    reflexivity.
Qed.

(** The branches of [main] with at least two positional arguments, one
    goal each: the existence check raises; [mkdir] raises; the child
    cannot be started; no entry ends in [.ply]; one does; the child
    fails; the input does not exist. The glob cannot raise once [mkdir]
    has succeeded. *)
Ltac run_cases execute t cwd a1 a2 :=
  rewrite (run_valid_args _ a1 a2 _ cwd t); cbv zeta;
  destruct (try_exists t cwd (Path_of a1)) as [ex|[|]] eqn:Hex;
    [|destruct (mkdir true true t cwd (Path_of a2)) as [[em tm]|t1] eqn:Hmk;
        [|destruct (execute (sharp_args (Path_of a1) (Path_of a2)) cwd t1)
            as [er|[cp t2]] eqn:Hrun;
          [|destruct (returncode cp =? 0)%Z eqn:Hrc; cbn [negb];
              [destruct (fs_glob t2 cwd (Path_of a2) "*.ply")
                 as [eg|[|output_ply others]] eqn:Hglob;
               [exfalso;
                destruct (glob_after_mkdir _ _ _ _ _ _ Hmk t2) as [b Hb];
                rewrite (fs_glob_value _ _ _ _ _ Hb) in Hglob;
                discriminate| |]|]]]|].

(** [main] with fewer than two positional arguments. *)
Lemma run_few_args (argv : list string) (cwd : location) (t : node) :
  length (positional argv) < 2 ->
  run execute argv cwd t =
    (SystemExit 1, mkWorld cwd t [EvPrint (json_dumps (error_message usage))]).
Proof.
  destruct argv as [|prog [|a1 [|a2 rest]]]; cbn; intros H;
    try reflexivity; lia.
Qed.

(** C1. When validation passes, the output directory is prepared, the
    tool exits with status zero and the output directory has an entry
    whose name ends in [.ply], the run prints the starting message and
    then the completion message, whose [output_path] is the output
    directory joined with the first such entry in enumeration order;
    [main] returns without calling [sys.exit], and the exit status is 0. *)
Theorem C1_success (prog a1 a2 : string) (rest : list string)
    (cwd : location) (t t1 t2 : node) (cp : CompletedProcess) (name : string) :
  fs_exists t cwd (Path_of a1) = true ->
  mkdir true true t cwd (Path_of a2) = inr t1 ->
  execute (sharp_args (Path_of a1) (Path_of a2)) cwd t1 = inr (cp, t2) ->
  returncode cp = 0%Z ->
  find (fun n => endswith n ".ply") (scandir t2 cwd (Path_of a2)) = Some name ->
  run execute (prog :: a1 :: a2 :: rest) cwd t =
    (Return tt,
     mkWorld cwd t2
       (prelude (Path_of a1) (Path_of a2) ++
        [EvScandir (str (Path_of a2));
         EvPrint (json_dumps
                    (complete_message (str (child (Path_of a2) name))))])%list)
  /\ exit_status (fst (run execute (prog :: a1 :: a2 :: rest) cwd t)) = 0%Z.
Proof.
  intros Hin Hdir Hrun Hrc Hply.
  destruct (glob_after_mkdir _ _ _ _ _ _ Hdir t2) as [b Hb].
  destruct (glob_ply_first _ _ _ _ _ Hb Hply) as [others Hglob].
  apply try_exists_true in Hin.
  rewrite run_valid_args, Hin, Hdir, Hrun, Hrc, Hglob. cbn [negb Z.eqb].
  split; reflexivity.
Qed.

(** C2. When the tool exits with a code other than zero, the run prints,
    after the starting message, the dict whose only key is [error] and
    whose value is the label [SHARP failed: ] followed by the captured
    standard error, and calls [sys.exit(1)]: the exit status is 1, the
    output directory is not scanned and no completion message is
    printed. *)
Theorem C2_tool_failure (prog a1 a2 : string) (rest : list string)
    (cwd : location) (t t1 t2 : node) (cp : CompletedProcess) :
  fs_exists t cwd (Path_of a1) = true ->
  mkdir true true t cwd (Path_of a2) = inr t1 ->
  execute (sharp_args (Path_of a1) (Path_of a2)) cwd t1 = inr (cp, t2) ->
  returncode cp <> 0%Z ->
  let out := run execute (prog :: a1 :: a2 :: rest) cwd t in
  out =
    (SystemExit 1,
     mkWorld cwd t2
       (prelude (Path_of a1) (Path_of a2) ++
        [EvPrint (json_dumps
                    (error_message ("SHARP failed: " ++ stderr cp)))])%list)
  /\ exit_status (fst out) = 1%Z
  /\ (forall p, ~ In (EvScandir p) (w_trace (snd out)))
  /\ (forall path, ~ In (json_dumps (complete_message path))
                      (printed (w_trace (snd out)))).
Proof.
  intros Hin Hdir Hrun Hrc out. subst out.
  apply Z.eqb_neq in Hrc. apply try_exists_true in Hin.
  rewrite run_valid_args, Hin, Hdir, Hrun, Hrc. cbn [negb].
  repeat split.
  - intros p H. cbn in H.
    repeat (destruct H as [H|H]; [discriminate|]). exact H.
  - intros path H. cbn in H.
    repeat (destruct H as [H|H]; [vm_compute in H; discriminate|]). exact H.
Qed.

(** C3. When the tool exits with status zero and no entry of the output
    directory has a name ending in [.ply], the last line printed is
    exactly the JSON text of the dict with the single key [error] and the
    value [No .ply file generated], and the exit status is 1. *)
Theorem C3_no_ply (prog a1 a2 : string) (rest : list string)
    (cwd : location) (t t1 t2 : node) (cp : CompletedProcess) :
  fs_exists t cwd (Path_of a1) = true ->
  mkdir true true t cwd (Path_of a2) = inr t1 ->
  execute (sharp_args (Path_of a1) (Path_of a2)) cwd t1 = inr (cp, t2) ->
  returncode cp = 0%Z ->
  find (fun n => endswith n ".ply") (scandir t2 cwd (Path_of a2)) = None ->
  let out := run execute (prog :: a1 :: a2 :: rest) cwd t in
  out =
    (SystemExit 1,
     mkWorld cwd t2
       (prelude (Path_of a1) (Path_of a2) ++
        [EvScandir (str (Path_of a2));
         EvPrint (json_dumps (error_message "No .ply file generated"))])%list)
  /\ exit_status (fst out) = 1%Z
  /\ last (printed (w_trace (snd out))) "" =
       "{" ++ quoted "error" ++ ": " ++ quoted "No .ply file generated" ++ "}".
Proof.
  intros Hin Hdir Hrun Hrc Hply out. subst out.
  destruct (glob_after_mkdir _ _ _ _ _ _ Hdir t2) as [b Hb].
  apply try_exists_true in Hin.
  rewrite run_valid_args, Hin, Hdir, Hrun, Hrc, (glob_ply_none _ _ _ _ Hb Hply).
  cbn [negb Z.eqb]. repeat split; reflexivity.
Qed.


(** C5. With fewer than two positional arguments the output is the single
    dict with the key [error] and the usage string as its value, and the
    exit status is 1. *)
Theorem C5_usage (argv : list string) (cwd : location) (t : node) :
  length (positional argv) < 2 ->
  let out := run execute argv cwd t in
  fst out = SystemExit 1
  /\ exit_status (fst out) = 1%Z
  /\ printed (w_trace (snd out)) =
       [json_dumps
          (error_message "Usage: generate_splat.py <input_image> <output_dir>")].
Proof.
  intros H out. subst out. rewrite (run_few_args _ _ _ H).
  repeat split; reflexivity.
Qed.

(** C6, as the code has it. The validator asks for at least two
    positional arguments: the run ends at once with the usage error and
    [sys.exit(1)], before any other step, exactly when there are fewer
    than two; a third and later arguments do not make it fail. *)
Theorem C6_usage_iff_fewer_than_two (argv : list string) (cwd : location)
    (t : node) :
  run execute argv cwd t =
    (SystemExit 1, mkWorld cwd t [EvPrint (json_dumps (error_message usage))])
  <-> length (positional argv) < 2.
Proof.
  split; [|apply run_few_args].
  destruct argv as [|prog [|a1 [|a2 rest]]]; cbn [positional List.tl length];
    try lia.
  run_cases execute t cwd a1 a2; discriminate.
Qed.


(** C8. A run that ends by returning or by [sys.exit] has printed
    exactly one terminal message, as its last line, after at most the
    starting message, which is no terminal message. In a run that starts
    the tool, the reader of standard output has received the starting
    message, and nothing else, when the child is started, and the
    starting message is printed once. *)
Theorem C8_messages (argv : list string) (cwd : location) (t : node) :
  let out := run execute argv cwd t in
  let lines := printed (w_trace (snd out)) in
  ((forall e, fst out <> Raised e) ->
   exists final,
     terminal final /\
     (lines = [json_dumps final] \/
      lines = [json_dumps starting_message; json_dumps final]))
  /\ (forall args, In (EvRun args) (w_trace (snd out)) ->
       seen_at_run (w_trace (snd out)) [] [] = Some [json_dumps starting_message]
       /\ exists others,
            lines = json_dumps starting_message :: others /\
            ~ In (json_dumps starting_message) others)
  /\ (forall d, terminal d -> json_dumps d <> json_dumps starting_message).
Proof.
  intros out lines. subst lines out.
  assert (Hterm : forall d, terminal d ->
                            json_dumps d <> json_dumps starting_message).
  { intros d [[text ->]|[path ->]] H; vm_compute in H; discriminate. }
  split; [|split; [|exact Hterm]].
  - destruct argv as [|prog [|a1 [|a2 rest]]];
      try (intros _; exists (error_message usage);
           split; [left; eexists; reflexivity | left; reflexivity]).
    run_cases execute t cwd a1 a2;
      try (intros H; exfalso; exact (H _ eq_refl)); intros _.
    + eexists. split; [left; eexists; reflexivity|]. right. reflexivity.
    + eexists. split; [right; eexists; reflexivity|]. right. reflexivity.
    + eexists. split; [left; eexists; reflexivity|]. right. reflexivity.
    + eexists. split; [left; eexists; reflexivity|]. left. reflexivity.
  - destruct argv as [|prog [|a1 [|a2 rest]]];
      try (intros args [H|[]]; discriminate).
    run_cases execute t cwd a1 a2; intros args Hin.
    + cbn in Hin. repeat (destruct Hin as [Hin|Hin]; [discriminate|]).
      destruct Hin.
    + cbn in Hin. repeat (destruct Hin as [Hin|Hin]; [discriminate|]).
      destruct Hin.
    + split; [reflexivity|]. exists []. split; [reflexivity|]. intros [].
    + split; [reflexivity|]. eexists. split; [reflexivity|].
      intros [H|[]]. revert H. apply Hterm. left. eexists. reflexivity.
    + split; [reflexivity|]. eexists. split; [reflexivity|].
      intros [H|[]]. revert H. apply Hterm. right. eexists. reflexivity.
    + split; [reflexivity|]. eexists. split; [reflexivity|].
      intros [H|[]]. revert H. apply Hterm. left. eexists. reflexivity.
    + cbn in Hin. repeat (destruct Hin as [Hin|Hin]; [discriminate|]).
      destruct Hin.
Qed.

(** C9. With more than two positional arguments the usage error is not
    printed and the arguments after the second are read nowhere: the run
    is the run on the program name and the first two. The first is the
    input image and the second the output directory: the existence check
    is made on the first, the directory made and the directory scanned
    are the second, and the child gets the first after [-i] and the
    second after [-o]; the run is the following one, branch by branch. *)
Theorem C9_extra_arguments_ignored (argv : list string) (cwd : location)
    (t : node) :
  2 < length (positional argv) ->
  let out := run execute argv cwd t in
  let input_image := Path_of (nth 1 argv "") in
  let output_dir := Path_of (nth 2 argv "") in
  let child_args :=
    ["sharp"; "predict"; "-i"; str input_image; "-o"; str output_dir] in
  let started :=
    [EvStat (str input_image);
     EvMkdir (str output_dir);
     EvPrint (json_dumps starting_message);
     EvFlush;
     EvRun child_args] in
  out = run execute (firstn 3 argv) cwd t
  /\ ~ In (json_dumps (error_message usage)) (printed (w_trace (snd out)))
  /\ out =
     match try_exists t cwd input_image with
     | inl e =>
         (Raised (OSError e), mkWorld cwd t [EvStat (str input_image)])
     | inr false =>
         (SystemExit 1,
          mkWorld cwd t
            [EvStat (str input_image);
             EvPrint (json_dumps
                        (error_message
                           ("Input image not found: " ++ str input_image)))])
     | inr true =>
         match mkdir true true t cwd output_dir with
         | inl (e, t') =>
             (Raised e,
              mkWorld cwd t'
                [EvStat (str input_image); EvMkdir (str output_dir)])
         | inr t1 =>
             match execute child_args cwd t1 with
             | inl e => (Raised e, mkWorld cwd t1 started)
             | inr (cp, t2) =>
                 if (returncode cp =? 0)%Z then
                   match fs_glob t2 cwd output_dir "*.ply" with
                   | inl e =>
                       (Raised e,
                        mkWorld cwd t2
                          (started ++ [EvScandir (str output_dir)])%list)
                   | inr [] =>
                       (SystemExit 1,
                        mkWorld cwd t2
                          (started ++
                           [EvScandir (str output_dir);
                            EvPrint
                              (json_dumps
                                 (error_message "No .ply file generated"))])%list)
                   | inr (output_ply :: _) =>
                       (Return tt,
                        mkWorld cwd t2
                          (started ++
                           [EvScandir (str output_dir);
                            EvPrint
                              (json_dumps
                                 (complete_message (str output_ply)))])%list)
                   end
                 else
                   (SystemExit 1,
                    mkWorld cwd t2
                      (started ++
                       [EvPrint (json_dumps
                                   (error_message
                                      ("SHARP failed: " ++ stderr cp)))])%list)
             end
         end
     end.
Proof.
  destruct argv as [|prog [|a1 [|a2 rest]]]; cbn [positional List.tl length];
    try lia.
  intros _. cbv zeta. cbn [firstn nth].
  assert (Hlines : forall lines : list string,
             Forall (fun l => json_dumps (error_message usage) <> l) lines ->
             ~ In (json_dumps (error_message usage)) lines).
  { intros lines H Hin. rewrite Forall_forall in H. exact (H _ Hin eq_refl). }
  split; [rewrite !run_valid_args; reflexivity|].
  split.
  - run_cases execute t cwd a1 a2;
      apply Hlines; cbn [snd w_trace prelude app printed];
      repeat constructor; intros H; vm_compute in H; discriminate.
  - rewrite run_valid_args. cbv zeta.
    destruct (try_exists t cwd (Path_of a1)) as [e|[|]]; try reflexivity.
    destruct (mkdir true true t cwd (Path_of a2)) as [[e t']|t1];
      [reflexivity|].
    change ["sharp"; "predict"; "-i"; str (Path_of a1); "-o"; str (Path_of a2)]
      with (sharp_args (Path_of a1) (Path_of a2)).
    destruct (execute _ cwd t1) as [e|[cp t2]]; [reflexivity|].
    destruct (returncode cp =? 0)%Z; reflexivity.
Qed.



End Flow.

(** * Further properties of [main] *)

(** *** What [mkdir] leaves in place *)

Lemma same_kind_trans (a b c : node) :
  same_kind a b -> same_kind b c -> same_kind a c.
Proof. destruct a, b, c; cbn; tauto. Qed.

Lemma keeps_refl (t : node) : keeps t t.
Proof. intros loc x H. exists x. split; [exact H | destruct x; exact I]. Qed.

Lemma keeps_trans (t t1 t2 : node) : keeps t t1 -> keeps t1 t2 -> keeps t t2.
Proof.
  intros H1 H2 loc x Hx.
  destruct (H1 _ _ Hx) as (x1 & Hx1 & K1).
  destruct (H2 _ _ Hx1) as (x2 & Hx2 & K2).
  exists x2. split; [exact Hx2 | exact (same_kind_trans _ _ _ K1 K2)].
Qed.

Lemma add_child_keeps (t : node) (ap : list string) (name : string) (c : node) :
  keeps t (add_child t ap name c).
Proof. intros loc x H. exact (lookup_add_child_kept name c _ t ap x H). Qed.

Lemma walk_keeps (t t1 : node) (names : list string) :
  keeps t t1 ->
  forall cur loc, walk t cur names = inr loc -> walk t1 cur names = inr loc.
Proof.
  intros K. induction names as [|m names IH]; intros cur loc; cbn [walk].
  - destruct (node_at t cur) as [x|] eqn:E; [|discriminate].
    destruct (K _ _ E) as (x' & -> & _). auto.
  - destruct (node_at t cur) as [x|] eqn:E; [|discriminate].
    destruct (K _ _ E) as (x' & -> & S).
    destruct x as [|w es]; [discriminate|].
    destruct x' as [|w' es']; [destruct S|].
    destruct (too_long m); [discriminate | apply IH].
Qed.

Lemma os_mkdir_keeps (t t1 : node) (cwd : location) (p : Path) :
  os_mkdir t cwd p = inr t1 -> keeps t t1.
Proof.
  unfold os_mkdir.
  destruct (resolve t cwd p) as [[[]| |]|]; try discriminate.
  destruct (walk t (start cwd p) (removelast (tail p))) as [|loc];
    [discriminate|].
  destruct (node_at t loc) as [[|[|] es]|]; try discriminate.
  intros [= <-]. apply add_child_keeps.
Qed.

Lemma mkdir_single_keeps (exist_ok : bool) (t t1 : node) (cwd : location)
    (p : Path) :
  mkdir_single exist_ok t cwd p = inr t1 -> keeps t t1.
Proof.
  unfold mkdir_single.
  destruct (os_mkdir t cwd p) as [[e| |]|t'] eqn:E; try discriminate.
  - destruct e; try discriminate;
      intros H; apply mkdir_except_inr in H as [-> _]; apply keeps_refl.
  - intros [= <-]. exact (os_mkdir_keeps _ _ _ _ E).
Qed.

Lemma mkdir_parents_keeps (cwd : location) (r : string) (rtail : list string) :
  forall (exist_ok : bool) (t t1 : node),
    mkdir_parents exist_ok t cwd r rtail = inr t1 -> keeps t t1.
Proof.
  induction rtail as [|n rparent IH]; intros exist_ok t t1;
    rewrite mkdir_parents_eq; cbv zeta;
    destruct (os_mkdir t cwd _) as [[e| |]|t'] eqn:E;
    try discriminate;
    try (intros [= <-]; exact (os_mkdir_keeps _ _ _ _ E));
    destruct e; try discriminate;
    try (intros H; apply mkdir_except_inr in H as [-> _]; apply keeps_refl).
  destruct (mkdir_parents true t cwd r rparent) as [|t0] eqn:E0; [discriminate|].
  intros H. apply (keeps_trans _ t0).
  - exact (IH _ _ _ E0).
  - exact (mkdir_single_keeps _ _ _ _ _ H).
Qed.

Lemma mkdir_keeps (parents exist_ok : bool) (t t1 : node) (cwd : location)
    (p : Path) :
  mkdir parents exist_ok t cwd p = inr t1 -> keeps t t1.
Proof.
  unfold mkdir. destruct parents.
  - apply mkdir_parents_keeps.
  - apply mkdir_single_keeps.
Qed.

Lemma keeps_exists (t t1 : node) (cwd : location) (q : Path) :
  keeps t t1 ->
  fs_exists t cwd q = true ->
  fs_exists t1 cwd q = true /\ is_dir t1 cwd q = is_dir t cwd q.
Proof.
  intros K. unfold fs_exists, is_dir.
  destruct (resolve t cwd q) as [|loc] eqn:E; [discriminate|].
  intros _. apply resolve_inr in E as [R W].
  assert (E1 : resolve t1 cwd q = inr loc).
  { apply resolve_inr. split; [exact R | exact (walk_keeps _ _ _ K _ _ W)]. }
  rewrite E1. split; [reflexivity|].
  destruct (walk_node _ _ _ _ W) as [x Hx].
  destruct (K _ _ Hx) as (x' & Hx' & S).
  rewrite Hx, Hx'. destruct x, x'; cbn in S; try contradiction; reflexivity.
Qed.

(** *** The text of a child path *)

Lemma append_assoc (a b c : string) : (a ++ b) ++ c = a ++ b ++ c.
Proof. induction a as [|x a IH]; cbn; [reflexivity | now rewrite IH]. Qed.

Lemma join_snoc (l : list string) (x : string) :
  exists pre, join "/" (l ++ [x]) = pre ++ x.
Proof.
  induction l as [|y l [pre IH]].
  - exists "". reflexivity.
  - exists (y ++ "/" ++ pre).
    change (join "/" ((y :: l) ++ [x])) with (join "/" (y :: (l ++ [x]))).
    destruct (l ++ [x])%list as [|z l'] eqn:E.
    + destruct l; discriminate.
    + change (join "/" (y :: z :: l')) with (y ++ "/" ++ join "/" (z :: l')).
      rewrite IH, !append_assoc. reflexivity.
Qed.

Lemma endswith_app (a b suffix : string) :
  endswith b suffix = true -> endswith (a ++ b) suffix = true.
Proof.
  intros H. induction a as [|c a IH]; [exact H|].
  cbn [append endswith]. rewrite IH. apply orb_true_r.
Qed.

Lemma append_not_empty (a b : string) : b <> "" -> a ++ b <> "".
Proof. destruct a; cbn; [auto | discriminate]. Qed.

(** The text of [p / name] ends as [name] does. *)
Lemma str_child_endswith (p : Path) (name suffix : string) :
  name <> "" ->
  endswith name suffix = true ->
  endswith (str (child p name)) suffix = true.
Proof.
  intros Hne H. unfold str, child. cbn [root tail].
  destruct (join_snoc (tail p) name) as [pre ->].
  rewrite <- append_assoc.
  destruct (String.eqb_spec ((root p ++ pre) ++ name) "") as [E|_].
  - exfalso. exact (append_not_empty _ _ Hne E).
  - apply endswith_app. exact H.
Qed.

Lemma glob_head (t : node) (cwd : location) (p : Path) (pattern : string)
    (first : Path) (others : list Path) :
  fs_glob t cwd p pattern = inr (first :: others) ->
  exists name,
    first = child p name /\
    In name (scandir t cwd p) /\
    fnmatch pattern name = true.
Proof.
  unfold fs_glob. intros H.
  assert (Hin : In first (map (child p)
                            (filter (fnmatch pattern) (scandir t cwd p)))).
  { destruct (try_is_dir t cwd p) as [|[|]]; try discriminate.
    injection H as ->. left. reflexivity. }
  apply in_map_iff in Hin as (name & <- & Hname).
  apply filter_In in Hname as [Hin Hm]. eauto.
Qed.

(** The branches of [main] again, for any way of running the child. *)
Ltac run_branches execute t cwd a1 a2 :=
  rewrite run_valid_args; cbv zeta;
  destruct (try_exists t cwd (Path_of a1)) as [ex|[|]] eqn:Hex;
    [|destruct (mkdir true true t cwd (Path_of a2)) as [[em tm]|t1] eqn:Hmk;
        [|destruct (execute (sharp_args (Path_of a1) (Path_of a2)) cwd t1)
            as [er|[cp t2]] eqn:Hrun;
          [|destruct (returncode cp =? 0)%Z eqn:Hrc; cbn [negb];
              [destruct (fs_glob t2 cwd (Path_of a2) "*.ply")
                 as [eg|[|output_ply others]] eqn:Hglob;
               [exfalso;
                destruct (glob_after_mkdir _ _ _ _ _ _ Hmk t2) as [b Hb];
                rewrite (fs_glob_value _ _ _ _ _ Hb) in Hglob;
                discriminate| |]|]]]|].

Section Beyond.

Variable execute :
  list string -> location -> node -> exn + (CompletedProcess * node).

(** X1. [main] reads its arguments through [Path] only: two argument
    vectors with at least two positional arguments whose first two parse
    to the same paths give the same run, whatever the program name and
    the later arguments are. *)
Theorem X1_run_by_parsed_paths (prog prog' a1 a2 b1 b2 : string)
    (rest rest' : list string) (cwd : location) (t : node) :
  Path_of a1 = Path_of b1 ->
  Path_of a2 = Path_of b2 ->
  run execute (prog :: a1 :: a2 :: rest) cwd t =
  run execute (prog' :: b1 :: b2 :: rest') cwd t.
Proof.
  intros H1 H2. rewrite !run_valid_args. cbv zeta. rewrite H1, H2.
  reflexivity.
Qed.

(** X2. The exit status of every run is 0 or 1. It is 0 exactly when
    [main] returns, and [main] returns exactly when the last line printed
    is a completion message. *)
Theorem X2_exit_status (argv : list string) (cwd : location) (t : node) :
  let out := run execute argv cwd t in
  (exit_status (fst out) = 0%Z \/ exit_status (fst out) = 1%Z)
  /\ (exit_status (fst out) = 0%Z <-> fst out = Return tt)
  /\ (fst out = Return tt <->
      exists path,
        last (printed (w_trace (snd out))) "" =
          json_dumps (complete_message path)).
Proof.
  cbv zeta.
  assert (Hno : forall (r : result unit) (line : string),
            (forall path, line <> json_dumps (complete_message path)) ->
            r <> Return tt ->
            (exit_status r = 0%Z \/ exit_status r = 1%Z) ->
            exit_status r <> 0%Z ->
            (exit_status r = 0%Z \/ exit_status r = 1%Z)
            /\ (exit_status r = 0%Z <-> r = Return tt)
            /\ (r = Return tt <->
                exists path, line = json_dumps (complete_message path))).
  { intros r line Hline Hr H01 H0. split; [exact H01|]. split.
    - split; intros H; contradiction.
    - split; [intros H; contradiction|].
      intros [path H]. exfalso. exact (Hline _ H). }
  destruct argv as [|prog [|a1 [|a2 rest]]];
    try (apply Hno; cbn;
         [intros path H; vm_compute in H; discriminate
         |discriminate | right; reflexivity | discriminate]).
  run_branches execute t cwd a1 a2;
    try (apply Hno; cbn;
         [intros path H; vm_compute in H; discriminate
         |discriminate | right; reflexivity | discriminate]).
  cbn. split; [left; reflexivity|]. split; [tauto|].
  split; [intros _; eexists; reflexivity | reflexivity].
Qed.


(** X5. Creating the output directory removes nothing: every path that
    exists before the [mkdir] of [main] exists after it, and is a
    directory after it exactly if it was one before. *)
Theorem X5_mkdir_removes_nothing (cwd : location) (t t1 : node) (p q : Path) :
  mkdir true true t cwd p = inr t1 ->
  fs_exists t cwd q = true ->
  fs_exists t1 cwd q = true /\ is_dir t1 cwd q = is_dir t cwd q.
Proof.
  intros H. apply keeps_exists. exact (mkdir_keeps _ _ _ _ _ _ H).
Qed.

(** X6. Whether the output directory is there beforehand makes no
    difference: when [main] passes its checks and makes the directory,
    the run from the file system with the directory already made is the
    same run, event by event, and the input image is still there when the
    child is started. *)
Theorem X6_run_after_prepared (prog a1 a2 : string) (rest : list string)
    (cwd : location) (t t1 : node) :
  fs_exists t cwd (Path_of a1) = true ->
  mkdir true true t cwd (Path_of a2) = inr t1 ->
  fs_exists t1 cwd (Path_of a1) = true
  /\ run execute (prog :: a1 :: a2 :: rest) cwd t1 =
     run execute (prog :: a1 :: a2 :: rest) cwd t.
Proof.
  intros Hin Hdir.
  destruct (keeps_exists _ _ cwd (Path_of a1)
              (mkdir_keeps _ _ _ _ _ _ Hdir) Hin) as [Hin1 _].
  split; [exact Hin1|].
  apply try_exists_true in Hin. apply try_exists_true in Hin1.
  rewrite !run_valid_args. cbv zeta.
  rewrite Hin, Hin1, Hdir,
    (mkdir_existing true _ _ _ (mkdir_is_dir _ _ _ _ _ _ Hdir)).
  reflexivity.
Qed.

(** X7. The steps of a run other than its prints are an initial part of
    the sequence existence check, [mkdir], flush, child, scan, on the
    paths of the first two arguments: each step happens at most once and
    none before the one the source puts before it. *)
Theorem X7_steps_in_order (argv : list string) (cwd : location) (t : node) :
  exists k,
    non_prints (w_trace (snd (run execute argv cwd t))) =
      firstn k (pipeline (Path_of (nth 1 argv "")) (Path_of (nth 2 argv ""))).
Proof.
  destruct argv as [|prog [|a1 [|a2 rest]]]; try (exists 0; reflexivity).
  cbn [nth]. run_branches execute t cwd a1 a2.
  - exists 1. reflexivity.
  - exists 2. reflexivity.
  - exists 4. reflexivity.
  - exists 5. reflexivity.
  - exists 5. reflexivity.
  - exists 4. reflexivity.
  - exists 1. reflexivity.
Qed.

(** X8. When [main] returns, the [output_path] of the completion message
    is the output directory joined with the name of an entry that the
    directory has at the end of the run, and both the name and the whole
    path end in [.ply]. *)
Theorem X8_output_path (prog a1 a2 : string) (rest : list string)
    (cwd : location) (t : node) :
  let out := run execute (prog :: a1 :: a2 :: rest) cwd t in
  fst out = Return tt ->
  exists name,
    In name (scandir (w_fs (snd out)) cwd (Path_of a2)) /\
    endswith name ".ply" = true /\
    last (printed (w_trace (snd out))) "" =
      json_dumps (complete_message (str (child (Path_of a2) name))) /\
    endswith (str (child (Path_of a2) name)) ".ply" = true.
Proof.
  cbv zeta. run_branches execute t cwd a1 a2; try discriminate.
  intros _. destruct (glob_head _ _ _ _ _ _ Hglob) as (name & -> & Hin & Hm).
  rewrite fnmatch_star_ply in Hm.
  exists name. split; [exact Hin|]. split; [exact Hm|].
  split; [reflexivity|].
  apply str_child_endswith; [|exact Hm].
  intros ->. discriminate.
Qed.

(** X9. The captured standard output of the child is never used, and its
    captured standard error only when its exit code is not zero: with
    these replaced by anything else the run is the same. *)
Theorem X9_unused_streams (f g : string -> string) (argv : list string)
    (cwd : location) (t : node) :
  run (fun args c fs => recapture f g (execute args c fs)) argv cwd t =
  run execute argv cwd t.
Proof.
  destruct argv as [|prog [|a1 [|a2 rest]]]; try reflexivity.
  rewrite !run_valid_args. cbv beta zeta.
  destruct (try_exists t cwd (Path_of a1)) as [e|[|]]; try reflexivity.
  destruct (mkdir true true t cwd (Path_of a2)) as [[e t']|t1];
    [reflexivity|].
  destruct (execute _ cwd t1) as [e|[cp t2]]; cbn [recapture]; [reflexivity|].
  cbn [returncode stderr].
  destruct (returncode cp =? 0)%Z; reflexivity.
Qed.

End Beyond.

(** * The model on the example world *)

Example path_texts :
  map (fun s => str (Path_of s))
    [""; "."; "/"; "//"; "///a"; "a//b/./c/"; "//a/b"; "../x"; "./x.png"] =
    ["."; "."; "/"; "//"; "/a"; "a/b/c"; "//a/b"; "../x"; "x.png"].
Proof. reflexivity. Qed.

Example starting_text :
  json_dumps starting_message =
    "{" ++ quoted "status" ++ ": " ++ quoted "starting" ++ ", " ++
    quoted "message" ++ ": " ++ quoted "Loading SHARP model..." ++ "}".
Proof. reflexivity. Qed.

Example escaped_text :
  json_string (String newline (String dquote "a\b")) =
    String dquote ("\n\" ++ String dquote ("a\\b" ++ str1 dquote)).
Proof. reflexivity. Qed.

Example mkdir_makes_parents :
  mkdir true true example_fs example_cwd (Path_of "out/a") =
    inr (Dir true
           [("home",
             Dir true
               [("u", Dir true [("in.png", File); ("ro", Dir false []);
                                ("out", Dir true [("a", Dir true [])])])]);
            ("tmp", Dir true [])]).
Proof. reflexivity. Qed.

Example mkdir_without_parents :
  mkdir false true example_fs example_cwd (Path_of "out/a") =
    inl (OSError ENOENT, example_fs).
Proof. reflexivity. Qed.

Example mkdir_on_a_file :
  mkdir true true example_fs example_cwd (Path_of "in.png") =
    inl (OSError EEXIST, example_fs).
Proof. reflexivity. Qed.

Example mkdir_below_a_file :
  mkdir true true example_fs example_cwd (Path_of "in.png/out") =
    inl (OSError ENOTDIR, example_fs).
Proof. reflexivity. Qed.

Example mkdir_read_only :
  mkdir true true example_fs example_cwd (Path_of "ro/out") =
    inl (OSError EACCES, example_fs).
Proof. reflexivity. Qed.

Example mkdir_through_dot_dot :
  mkdir true true example_fs example_cwd (Path_of "a/../b") =
    inr (Dir true
           [("home",
             Dir true
               [("u", Dir true [("in.png", File); ("ro", Dir false []);
                                ("a", Dir true []); ("b", Dir true [])])]);
            ("tmp", Dir true [])]).
Proof. reflexivity. Qed.

(** What [mkdir] has made before it raises stays: [a] is there after
    the [FileExistsError] on [a/../in.png]. *)
Example mkdir_leaves_parents :
  mkdir true true example_fs example_cwd (Path_of "a/../in.png/x") =
    inl (OSError EEXIST,
         Dir true
           [("home",
             Dir true
               [("u", Dir true [("in.png", File); ("ro", Dir false []);
                                ("a", Dir true [])])]);
            ("tmp", Dir true [])]).
Proof. reflexivity. Qed.

(** A name of 256 bytes: [exists] and [is_dir] raise, where a missing
    name of 255 bytes or a name below a missing directory give [False]. *)
Example exists_long_name :
  byte_length long_name = 256
  /\ try_exists example_fs example_cwd (Path_of long_name) = inl ENAMETOOLONG
  /\ try_is_dir example_fs example_cwd (Path_of long_name) = inl ENAMETOOLONG
  /\ try_exists example_fs example_cwd
       (Path_of (String.substring 1 255 long_name)) = inr false
  /\ try_exists example_fs example_cwd
       (Path_of ("missing/" ++ long_name)) = inr false
  /\ try_exists example_fs example_cwd
       (Path_of ("in.png/" ++ long_name)) = inr false.
Proof. repeat split; vm_compute; reflexivity. Qed.

Example mkdir_long_name :
  mkdir true true example_fs example_cwd (Path_of ("a/" ++ long_name ++ "/b")) =
    inl (OSError ENAMETOOLONG,
         Dir true
           [("home",
             Dir true
               [("u", Dir true [("in.png", File); ("ro", Dir false []);
                                ("a", Dir true [])])]);
            ("tmp", Dir true [])]).
Proof. vm_compute. reflexivity. Qed.

(** A null character: [exists] is [False], [mkdir] raises [ValueError]
    at once. *)
Example null_character :
  try_exists example_fs example_cwd (Path_of (String "000" "a")) = inr false
  /\ mkdir true true example_fs example_cwd (Path_of (String "000" "a")) =
     inl (ValueError, example_fs).
Proof. split; vm_compute; reflexivity. Qed.

(** The run that directory creation ends: nothing is printed, and the
    interpreter exits with status 1 after the uncaught exception. *)
Example run_mkdir_raises :
  run tool_writes_ply ["generate_splat.py"; "in.png"; "ro/out"]
      example_cwd example_fs =
    (Raised (OSError EACCES),
     mkWorld example_cwd example_fs [EvStat "in.png"; EvMkdir "ro/out"])
  /\ exit_status (Raised (OSError EACCES)) = 1%Z.
Proof. split; reflexivity. Qed.

(** The run that the existence check ends. *)
Example run_exists_raises :
  run tool_writes_ply ["generate_splat.py"; long_name; "out"]
      example_cwd example_fs =
    (Raised (OSError ENAMETOOLONG),
     mkWorld example_cwd example_fs [EvStat long_name]).
Proof. vm_compute. reflexivity. Qed.

Example glob_long_name :
  fs_glob example_fs example_cwd (Path_of long_name) "*.ply" =
    inl (OSError ENAMETOOLONG).
Proof. vm_compute. reflexivity. Qed.

(** The glob keeps the enumeration order and takes hidden names too. *)
Example glob_order :
  fs_glob (Dir true [("b.ply", File); ("notes.txt", File);
                     (".ply", File); ("a.ply", Dir true [])])
    [] (Path_of "/") "*.ply" =
    inr [Path_of "/b.ply"; Path_of "/.ply"; Path_of "/a.ply"].
Proof. reflexivity. Qed.

(** * The theorems at work on the example world *)

Lemma C1_success_witness :
  run tool_writes_ply ["generate_splat.py"; "in.png"; "out"]
      example_cwd example_fs =
    (Return tt,
     mkWorld example_cwd example_fs_model
       (prelude (Path_of "in.png") (Path_of "out") ++
        [EvScandir "out";
         EvPrint (json_dumps (complete_message "out/model.ply"))])%list)
  /\ exit_status
       (fst (run tool_writes_ply ["generate_splat.py"; "in.png"; "out"]
               example_cwd example_fs)) = 0%Z.
Proof.
  apply (C1_success tool_writes_ply "generate_splat.py" "in.png" "out" []
           example_cwd example_fs example_fs_out example_fs_model
           (mkCompleted 0 "done" "") "model.ply");
    vm_compute; reflexivity.
Defined.

Lemma C2_tool_failure_witness :
  run tool_fails ["generate_splat.py"; "in.png"; "out"]
      example_cwd example_fs =
    (SystemExit 1,
     mkWorld example_cwd example_fs_out
       (prelude (Path_of "in.png") (Path_of "out") ++
        [EvPrint (json_dumps (error_message "SHARP failed: boom"))])%list).
Proof.
  apply (C2_tool_failure tool_fails "generate_splat.py" "in.png" "out" []
           example_cwd example_fs example_fs_out example_fs_out
           (mkCompleted 1 "" "boom"));
    vm_compute; solve [reflexivity | discriminate].
Defined.

Lemma C3_no_ply_witness :
  last (printed (w_trace (snd
         (run tool_writes_nothing ["generate_splat.py"; "in.png"; "out"]
            example_cwd example_fs)))) "" =
    "{" ++ quoted "error" ++ ": " ++ quoted "No .ply file generated" ++ "}".
Proof.
  apply (C3_no_ply tool_writes_nothing "generate_splat.py" "in.png" "out" []
           example_cwd example_fs example_fs_out example_fs_out
           (mkCompleted 0 "" ""));
    vm_compute; reflexivity.
Defined.


Lemma C5_usage_witness :
  printed (w_trace (snd
    (run tool_writes_ply ["generate_splat.py"; "in.png"]
       example_cwd example_fs))) =
    [json_dumps
       (error_message "Usage: generate_splat.py <input_image> <output_dir>")].
Proof.
  apply (C5_usage tool_writes_ply ["generate_splat.py"; "in.png"]
           example_cwd example_fs);
    vm_compute; lia.
Defined.

(** C6, as the specification has it, fails: with three positional
    arguments the run is not a usage failure. It starts the tool, returns
    with exit status 0 and never prints the usage error. *)
Lemma C6_counterexample :
  let argv := ["generate_splat.py"; "in.png"; "out"; "extra"] in
  let out := run tool_writes_ply argv example_cwd example_fs in
  length (positional argv) <> 2
  /\ fst out = Return tt
  /\ exit_status (fst out) = 0%Z
  /\ In (EvRun (sharp_args (Path_of "in.png") (Path_of "out")))
        (w_trace (snd out))
  /\ ~ In (json_dumps (error_message usage)) (printed (w_trace (snd out))).
Proof.
  cbv zeta. split; [cbn; lia|].
  split; [vm_compute; reflexivity|].
  split; [vm_compute; reflexivity|].
  split.
  - vm_compute. do 4 right. left. reflexivity.
  - vm_compute. intros [H|[H|[]]]; discriminate.
Qed.

Lemma C6_usage_iff_fewer_than_two_witness :
  run tool_writes_ply ["generate_splat.py"] example_cwd example_fs =
    (SystemExit 1,
     mkWorld example_cwd example_fs
       [EvPrint (json_dumps (error_message usage))])
  /\ ~ run tool_writes_ply ["generate_splat.py"; "in.png"; "out"; "extra"]
          example_cwd example_fs =
        (SystemExit 1,
         mkWorld example_cwd example_fs
           [EvPrint (json_dumps (error_message usage))]).
Proof.
  split.
  - apply (C6_usage_iff_fewer_than_two tool_writes_ply ["generate_splat.py"]
             example_cwd example_fs).
    vm_compute. lia.
  - intros H.
    apply (C6_usage_iff_fewer_than_two tool_writes_ply
             ["generate_splat.py"; "in.png"; "out"; "extra"]
             example_cwd example_fs) in H.
    vm_compute in H. lia.
Defined.


Lemma C8_messages_witness :
  (exists final,
     terminal final /\
     (printed (w_trace (snd
        (run tool_fails ["generate_splat.py"; "in.png"; "out"]
           example_cwd example_fs))) = [json_dumps final] \/
      printed (w_trace (snd
        (run tool_fails ["generate_splat.py"; "in.png"; "out"]
           example_cwd example_fs))) =
        [json_dumps starting_message; json_dumps final]))
  /\ seen_at_run
       (w_trace (snd
         (run tool_fails ["generate_splat.py"; "in.png"; "out"]
            example_cwd example_fs))) [] [] =
     Some [json_dumps starting_message].
Proof.
  destruct (C8_messages tool_fails ["generate_splat.py"; "in.png"; "out"]
              example_cwd example_fs) as (H1 & H2 & _).
  split.
  - apply H1. vm_compute. discriminate.
  - apply (H2 (sharp_args (Path_of "in.png") (Path_of "out"))).
    vm_compute. do 4 right. left. reflexivity.
Defined.

Lemma C9_extra_arguments_ignored_witness :
  run tool_writes_ply ["generate_splat.py"; "in.png"; "out"; "extra"; "more"]
      example_cwd example_fs =
  run tool_writes_ply ["generate_splat.py"; "in.png"; "out"]
      example_cwd example_fs
  /\ run tool_writes_ply ["generate_splat.py"; "in.png"; "out"; "extra"; "more"]
        example_cwd example_fs =
     (Return tt,
      mkWorld example_cwd example_fs_model
        [EvStat "in.png"; EvMkdir "out";
         EvPrint (json_dumps starting_message); EvFlush;
         EvRun ["sharp"; "predict"; "-i"; "in.png"; "-o"; "out"];
         EvScandir "out";
         EvPrint (json_dumps (complete_message "out/model.ply"))]).
Proof.
  destruct (C9_extra_arguments_ignored tool_writes_ply
              ["generate_splat.py"; "in.png"; "out"; "extra"; "more"]
              example_cwd example_fs) as (H1 & _ & H3).
  { vm_compute. lia. }
  split; [exact H1|].
  rewrite H3. vm_compute. reflexivity.
Defined.



(** * The further properties at work on the example world *)

Lemma X1_run_by_parsed_paths_witness :
  run tool_writes_ply ["generate_splat.py"; "./in.png"; "out//"]
      example_cwd example_fs =
  run tool_writes_ply ["python3"; "in.png"; "out/."; "extra"]
      example_cwd example_fs.
Proof.
  apply (X1_run_by_parsed_paths tool_writes_ply "generate_splat.py" "python3"
           "./in.png" "out//" "in.png" "out/." [] ["extra"]
           example_cwd example_fs);
    vm_compute; reflexivity.
Defined.


Lemma X5_mkdir_removes_nothing_witness :
  fs_exists example_fs_out example_cwd (Path_of "in.png") = true
  /\ is_dir example_fs_out example_cwd (Path_of "in.png") =
     is_dir example_fs example_cwd (Path_of "in.png").
Proof.
  apply (X5_mkdir_removes_nothing example_cwd example_fs example_fs_out
           (Path_of "out") (Path_of "in.png"));
    vm_compute; reflexivity.
Defined.

Lemma X6_run_after_prepared_witness :
  fs_exists example_fs_out example_cwd (Path_of "in.png") = true
  /\ run tool_writes_ply ["generate_splat.py"; "in.png"; "out"]
       example_cwd example_fs_out =
     run tool_writes_ply ["generate_splat.py"; "in.png"; "out"]
       example_cwd example_fs.
Proof.
  apply (X6_run_after_prepared tool_writes_ply "generate_splat.py" "in.png"
           "out" [] example_cwd example_fs example_fs_out);
    vm_compute; reflexivity.
Defined.

Lemma X8_output_path_witness :
  exists name,
    In name (scandir example_fs_model example_cwd (Path_of "out")) /\
    endswith name ".ply" = true /\
    last (printed (w_trace (snd
           (run tool_writes_ply ["generate_splat.py"; "in.png"; "out"]
              example_cwd example_fs)))) "" =
      json_dumps (complete_message (str (child (Path_of "out") name))) /\
    endswith (str (child (Path_of "out") name)) ".ply" = true.
Proof.
  apply (X8_output_path tool_writes_ply "generate_splat.py" "in.png" "out" []
           example_cwd example_fs).
  vm_compute. reflexivity.
Defined.
